(** * Deferred dataframe expressions and memoizing sessions

    A shallow embedding of [apache_beam/dataframe/expressions.py]:
    the [Expression] class hierarchy, the [Session] evaluator and the
    [elementwise_expression] helper, followed by the properties of the
    specification that were checked against them.

    Conventions.
    - Python values are an abstract type [Value]; the builtin [hash] on
      strings is an abstract function [hash].
    - [id(self)] is the address of the object under construction; the
      [__init__] functions take it as their first argument.
    - A Python exception is a result [Raise e]; effects on the interpreter
      state are threaded through the monad [M].
    - The interpreter state, [World], holds the dictionaries that are alive
      (a dictionary is a mutable object, reached through its address) and a
      log with one entry for each application of the function wrapped by a
      [ComputedExpression] made by [evaluate_at].  The log is what a test
      observes through a counter incremented by the wrapped function. *)

From stdpp Require Import base option list gmap strings pretty.

Local Open Scope string_scope.
Local Open Scope list_scope.

Set Warnings "-register-all".

(** ** Exceptions and results *)

Inductive exn : Type :=
| KeyError (key : string)            (* the [_id] of the missing key *)
| NotImplementedError (cls : string) (* the name of [type(self)] *)
| Failure (msg : string).            (* raised by a wrapped function *)

Inductive Res (A : Type) : Type :=
| Ok (a : A)
| Raise (e : exn).

Arguments Ok {A} a.
Arguments Raise {A} e.

Section Model.

Context {Value : Type}.
Variable hash : string -> Z.

(** ** The class hierarchy

    One constructor per class.  Every object carries the three attributes
    set by [Expression.__init__]; [Base] is a direct instance of
    [Expression] itself. *)

Inductive Expression : Type :=
| Base (name : string) (prox : Value) (ident : string)
| Placeholder (name : string) (prox : Value) (ident : string)
| Constant (name : string) (prox : Value) (ident : string) (value : Value)
| Computed (name : string) (prox : Value) (ident : string)
    (func : list Value -> Res Value) (arguments : list Expression)
    (requires preserves : bool).

Definition _name (e : Expression) : string :=
  match e with
  | Base n _ _ | Placeholder n _ _ | Constant n _ _ _
  | Computed n _ _ _ _ _ _ => n
  end.

Definition _proxy (e : Expression) : Value :=
  match e with
  | Base _ p _ | Placeholder _ p _ | Constant _ p _ _
  | Computed _ p _ _ _ _ _ => p
  end.

Definition _id (e : Expression) : string :=
  match e with
  | Base _ _ i | Placeholder _ _ i | Constant _ _ i _
  | Computed _ _ i _ _ _ _ => i
  end.

(** ['%s_%s' % (name, id(self))] *)
Definition default_id (name : string) (self : N) : string :=
  name +:+ "_" +:+ pretty self.

(** [_id or '%s_%s' % (name, id(self))]: [None] and the empty string are
    the two falsy values an [Optional[str]] can take. *)
Definition id_or_default (_id : option string) (name : string) (self : N)
  : string :=
  match _id with
  | Some s => if decide (s = EmptyString) then default_id name self else s
  | None => default_id name self
  end.

Definition Expression__init (self : N) (name : string) (proxy : Value)
    (_id : option string) : Expression :=
  Base name proxy (id_or_default _id name self).

Definition proxy (self : Expression) : Value := _proxy self.

Definition Expression_hash (self : Expression) : Z := hash (_id self).

Definition Expression_eq (self other : Expression) : bool :=
  String.eqb (_id self) (_id other).

Definition Expression_ne (self other : Expression) : bool :=
  negb (Expression_eq self other).

Definition PlaceholderExpression__init (self : N) (proxy : Value)
  : Expression :=
  Placeholder "placeholder" proxy (id_or_default None "placeholder" self).

Definition ConstantExpression__init (self : N) (value : Value)
    (proxy : option Value) : Expression :=
  let proxy := match proxy with None => value | Some p => p end in
  Constant "constant" proxy (id_or_default None "constant" self) value.

(** The default proxy is [func] applied to the proxies of [args], taken
    in order; the call may raise, and then so does the constructor.  The
    two flags default to [True] and [False]. *)
Definition ComputedExpression__init (self : N) (name : string)
    (func : list Value -> Res Value) (args : list Expression)
    (proxy_opt : option Value) (_id : option string)
    (requires_partition_by_index preserves_partition_by_index : option bool)
  : Res Expression :=
  let requires := default true requires_partition_by_index in
  let preserves := default false preserves_partition_by_index in
  match proxy_opt with
  | Some p =>
      Ok (Computed name p (id_or_default _id name self) func args
            requires preserves)
  | None =>
      match func (map proxy args) with
      | Ok p =>
          Ok (Computed name p (id_or_default _id name self) func args
                requires preserves)
      | Raise e => Raise e
      end
  end.

Definition elementwise_expression (self : N) (name : string)
    (func : list Value -> Res Value) (args : list Expression)
  : Res Expression :=
  ComputedExpression__init self name func args None None
    (Some false) (Some true).

Definition args (self : Expression) : list Expression :=
  match self with
  | Computed _ _ _ _ a _ _ => a
  | _ => []
  end.

Definition requires_partition_by_index (self : Expression) : Res bool :=
  match self with
  | Base _ _ _ => Raise (NotImplementedError "Expression")
  | Placeholder _ _ _ => Ok false
  | Constant _ _ _ _ => Ok false
  | Computed _ _ _ _ _ r _ => Ok r
  end.

Definition preserves_partition_by_index (self : Expression) : Res bool :=
  match self with
  | Base _ _ _ => Raise (NotImplementedError "Expression")
  | Placeholder _ _ _ => Ok false
  | Constant _ _ _ _ => Ok false
  | Computed _ _ _ _ _ _ p => Ok p
  end.

(** ** Dictionaries keyed by expressions

    A [dict] in insertion order.  A stored key matches a probe when the
    hashes agree and the stored key's [__eq__] accepts the probe. *)

Local Abbreviation Dict := (list (Expression * Value)).

Definition same_key (stored probe : Expression) : bool :=
  bool_decide (Expression_hash stored = Expression_hash probe)
  && Expression_eq stored probe.

Fixpoint dict_get (d : Dict) (k : Expression) : option Value :=
  match d with
  | [] => None
  | (k', v) :: d' => if same_key k' k then Some v else dict_get d' k
  end.

Definition dict_contains (d : Dict) (k : Expression) : bool :=
  match dict_get d k with Some _ => true | None => false end.

(** [d[k] = v]: an entry with a matching key keeps its key and takes the
    new value; otherwise the pair is added last. *)
Fixpoint dict_set (d : Dict) (k : Expression) (v : Value) : Dict :=
  match d with
  | [] => [(k, v)]
  | (k', v') :: d' =>
      if same_key k' k then (k', v) :: d' else (k', v') :: dict_set d' k v
  end.

(** ** Interpreter state *)

Record World : Type := mkWorld {
  dicts : gmap positive Dict;
  calls : list string
}.

Definition M (A : Type) : Type := World -> Res A * World.

Definition ret {A} (a : A) : M A := fun w => (Ok a, w).

Definition raise {A} (e : exn) : M A := fun w => (Raise e, w).

Definition bind {A B} (c : M A) (k : A -> M B) : M B :=
  fun w =>
    match c w with
    | (Ok a, w') => k a w'
    | (Raise e, w') => (Raise e, w')
    end.

Definition lift {A} (r : Res A) : M A := fun w => (r, w).

Notation "'let*' x ':=' c 'in' k" := (bind c (fun x => k))
  (at level 10, x name, c at level 100, k at level 200).

Definition mapM {A B} (f : A -> M B) : list A -> M (list B) :=
  fix go (l : list A) : M (list B) :=
    match l with
    | [] => ret []
    | a :: l' =>
        let* b := f a in
        let* bs := go l' in
        ret (b :: bs)
    end.

(** Applying the function of the expression named [ident]: the log gets
    its entry whether or not the function raises. *)
Definition apply_func (ident : string) (func : list Value -> Res Value)
    (vs : list Value) : M Value :=
  fun w => (func vs, mkWorld (dicts w) (calls w ++ [ident])).

(** ** Session *)

Record Session : Type := mkSession { _bindings : positive }.

(** The dictionary a session points to.  Sessions made by the constructor
    point to a live dictionary; a dangling address reads as empty. *)
Definition bindings_of (self : Session) (w : World) : Dict :=
  default [] (dicts w !! _bindings self).

Definition store_dict (l : positive) (d : Dict) (w : World) : World :=
  mkWorld (<[l := d]> (dicts w)) (calls w).

(** A dictionary display such as [{p: 42}]: a new dictionary object. *)
Definition new_dict (d : Dict) : M positive :=
  fun w =>
    let l := fresh (dom (dicts w)) in
    (Ok l, store_dict l d w).

(** [bindings or {}] *)
Definition or_empty (bindings : option positive) (w : World) : Dict :=
  match bindings with
  | None => []
  | Some m => default [] (dicts w !! m)
  end.

(** [self._bindings = dict(bindings or {})]: a new dictionary with the
    same items. *)
Definition Session__init (bindings : option positive) : M Session :=
  fun w =>
    let l := fresh (dom (dicts w)) in
    (Ok (mkSession l), store_dict l (or_empty bindings w) w).

Definition contains (self : Session) (expr : Expression) : M bool :=
  fun w => (Ok (dict_contains (bindings_of self w) expr), w).

Definition getitem (self : Session) (expr : Expression) : M Value :=
  fun w =>
    match dict_get (bindings_of self w) expr with
    | Some v => (Ok v, w)
    | None => (Raise (KeyError (_id expr)), w)
    end.

Definition setitem (self : Session) (expr : Expression) (v : Value)
  : M unit :=
  fun w =>
    (Ok tt, store_dict (_bindings self)
              (dict_set (bindings_of self w) expr v) w).

Definition lookup (self : Session) (expr : Expression) : M Value :=
  getitem self expr.

(** [evaluate_at], by class.  The generator over [self._args] is consumed
    from left to right before the function is called. *)
Fixpoint evaluate_at (self : Expression) (session : Session) {struct self}
  : M Value :=
  match self with
  | Base _ _ _ => raise (NotImplementedError "Expression")
  | Placeholder _ _ _ => lookup session self
  | Constant _ _ _ value => ret value
  | Computed _ _ ident func arguments _ _ =>
      let* vs := mapM (fun arg => evaluate_at arg session) arguments in
      apply_func ident func vs
  end.

Definition evaluate (self : Session) (expr : Expression) : M Value :=
  let* present := contains self expr in
  let* _ :=
    (if negb present
     then let* v := evaluate_at expr self in setitem self expr v
     else ret tt) in
  getitem self expr.

End Model.

Arguments Expression : clear implicits.
Arguments World : clear implicits.
Arguments M : clear implicits.

Abbreviation Dict V := (list (Expression V * V)).

Notation "'let*' x ':=' c 'in' k" := (bind c (fun x => k))
  (at level 10, x name, c at level 100, k at level 200).

(** How often the function of the expression named [ident] has been
    applied so far. *)
Definition applications {Value : Type} (ident : string) (w : World Value)
  : nat :=
  length (filter (fun x => x = ident) (calls w)).

(** An expression that was given [i] as its [_id] argument: only
    [Expression] and [ComputedExpression] take one. *)
Definition constructed_with_id {Value : Type} (i : string)
    (e : Expression Value) : Prop :=
  (exists self name proxy, e = Expression__init self name proxy (Some i))
  \/ (exists self name func args proxy requires preserves,
        ComputedExpression__init self name func args proxy (Some i)
          requires preserves = Ok e).

(** ** Test programs over integer values *)

Definition length_hash (s : string) : Z := Z.of_nat (String.length s).

Definition empty_world : World Z := mkWorld ∅ [].

Definition one (vs : list Z) : Res Z :=
  match vs with
  | [] => Ok 1%Z
  | _ => Raise (Failure "TypeError")
  end.

Definition incr (vs : list Z) : Res Z :=
  match vs with
  | [x] => Ok (x + 1)%Z
  | _ => Raise (Failure "TypeError")
  end.

Definition add (vs : list Z) : Res Z :=
  match vs with
  | [x; y] => Ok (x + y)%Z
  | _ => Raise (Failure "TypeError")
  end.

(** [root = f(a, a)], evaluated in a new session.  The expressions are
    given their proxies, so that constructing them applies no function. *)
Definition shared_twice : M Z Z :=
  let* a :=
    lift (ComputedExpression__init 1 "a" one [] (Some 0%Z) None None None) in
  let* root :=
    lift (ComputedExpression__init 2 "f" add [a; a] (Some 0%Z) None None None) in
  let* s := Session__init None in
  evaluate length_hash s root.

(** [root = f(g(a), h(a))], evaluated in a new session. *)
Definition diamond : M Z Z :=
  let* a :=
    lift (ComputedExpression__init 1 "a" one [] (Some 0%Z) None None None) in
  let* g :=
    lift (ComputedExpression__init 2 "g" incr [a] (Some 0%Z) None None None) in
  let* h :=
    lift (ComputedExpression__init 3 "h" incr [a] (Some 0%Z) None None None) in
  let* root :=
    lift (ComputedExpression__init 4 "f" add [g; h] (Some 0%Z) None None None) in
  let* s := Session__init None in
  evaluate length_hash s root.

(** [root = g(a)], evaluated in a session whose initial bindings give the
    intermediate expression [a] the value 7. *)
Definition bound_intermediate : M Z Z :=
  let* a :=
    lift (ComputedExpression__init 1 "a" one [] (Some 0%Z) None None None) in
  let* root :=
    lift (ComputedExpression__init 2 "g" incr [a] (Some 0%Z) None None None) in
  let* m := new_dict [(a, 7%Z)] in
  let* s := Session__init (Some m) in
  evaluate length_hash s root.

(** Two live objects made with the empty string as their [_id]. *)
Definition unnamed_one : Expression Z :=
  Expression__init 1 "x" 0%Z (Some EmptyString).

Definition unnamed_two : Expression Z :=
  Expression__init 2 "x" 0%Z (Some EmptyString).

(** A child that shares the [_id] of its parent. *)
Definition shadow_child : Expression Z :=
  Computed "c" 0%Z "x" one [] true false.

Definition shadow_root : Expression Z :=
  Computed "r" 0%Z "x" incr [shadow_child] true false.

(** [Constant(2) + Constant(3)], as [ComputedExpression] builds it and as
    [elementwise_expression] builds it. *)
Definition two : Expression Z := ConstantExpression__init 7 2%Z None.

Definition three : Expression Z := ConstantExpression__init 8 3%Z None.

Definition two_plus_three : Expression Z :=
  Computed "add" 5%Z "add_9" add [two; three] true false.

Definition elementwise_two_plus_three : Expression Z :=
  Computed "add" 5%Z "add_9" add [two; three] false true.

(** The session made first in an empty world, and the world after. *)
Definition first_session : Session := mkSession 1.

Definition session_world : World Z := (Session__init None empty_world).2.

Definition after_sum : World Z :=
  (evaluate length_hash first_session two_plus_three session_world).2.

(** A placeholder bound to 42 in a dictionary living at address 1, and the
    session made from that dictionary. *)
Definition the_placeholder : Expression Z :=
  PlaceholderExpression__init 5 0%Z.

Definition bound_world : World Z :=
  mkWorld {[ 1%positive := [(the_placeholder, 42%Z)] ]} [].

Definition second_session : Session := mkSession 2.

Definition bound_session_world : World Z :=
  (Session__init (Some 1%positive) bound_world).2.

(** ** Measures on expression trees

    Used to state what [evaluate_at] does on a whole tree.  A node that is
    reachable along several paths is met once per path, as [evaluate_at]
    meets it. *)

Section Measures.

Context {Value : Type}.

(** The number of [ComputedExpression] nodes whose identity is [i]. *)
Fixpoint occurrences (i : string) (e : Expression Value) : nat :=
  match e with
  | Computed _ _ ident _ a _ _ =>
      (if decide (ident = i) then 1 else 0)
      + sum_list (map (occurrences i) a)
  | _ => 0
  end.

(** The placeholders of the tree, from left to right. *)
Fixpoint placeholders (e : Expression Value) : list (Expression Value) :=
  match e with
  | Placeholder _ _ _ => [e]
  | Computed _ _ _ _ a _ _ => flat_map placeholders a
  | _ => []
  end.

(** [cs] are constants and [vs] their values, in the same order. *)
Definition constants_of (cs : list (Expression Value)) (vs : list Value)
  : Prop :=
  Forall2 (fun c v => exists name px ident, c = Constant name px ident v)
    cs vs.

(** The separator of a default identity. *)
Definition underscore : Ascii.ascii :=
  Ascii.Ascii true true true true true false true false.

(** Whether the character [c] occurs in [s]. *)
Fixpoint occurs_in (c : Ascii.ascii) (s : string) : bool :=
  match s with
  | EmptyString => false
  | String c' s' => bool_decide (c' = c) || occurs_in c s'
  end.

End Measures.

(** ** More test data *)

(** A sum over a bound placeholder and a constant, and a sum whose second
    argument is a placeholder that the first session does not bind. *)
Definition placeholder_plus_two : Expression Z :=
  Computed "add" 0%Z "sum" add [the_placeholder; two] true false.


(** A function that always fails, and an expression applying it. *)
Definition broken (vs : list Z) : Res Z := Raise (Failure "broken").

Definition broken_sum : Expression Z :=
  Computed "broken" 0%Z "broken_1" broken [two; three] true false.

(** The diamond [f(g(a), h(a))] as a tree. *)
Definition node_a : Expression Z := Computed "a" 0%Z "a_1" one [] true false.

Definition node_g : Expression Z :=
  Computed "g" 0%Z "g_2" incr [node_a] true false.

Definition node_h : Expression Z :=
  Computed "h" 0%Z "h_3" incr [node_a] true false.

Definition node_f : Expression Z :=
  Computed "f" 0%Z "f_4" add [node_g; node_h] true false.

(** A second session made after the first one, and the world after. *)
Definition two_sessions_world : World Z :=
  (Session__init None session_world).2.

(** The world after the diamond was evaluated in the first session. *)
Definition after_diamond : World Z :=
  (evaluate_at length_hash node_f first_session session_world).2.

(** The session of the bound placeholder, with one more binding: 100 for
    the constant [two]. *)
Definition rebound_world : World Z :=
  store_dict 2 [(the_placeholder, 42%Z); (two, 100%Z)] bound_session_world.

(** An expression made at another address from the identity of
    [two_plus_three]. *)
Definition rebuilt_sum : Expression Z :=
  Computed "other" 0%Z "add_9" one [] true false.

(** * Properties *)

Section Properties.

Context {Value : Type}.
Variable hash : string -> Z.

Local Abbreviation Expression := (Expression Value).
Local Abbreviation World := (World Value).
Local Abbreviation Dict := (list (Expression * Value)).

(** ** Induction over expression trees *)

Lemma Expression_tree_ind (P : Expression -> Prop) :
  (forall n p i, P (Base n p i)) ->
  (forall n p i, P (Placeholder n p i)) ->
  (forall n p i v, P (Constant n p i v)) ->
  (forall n p i f a r q, Forall P a -> P (Computed n p i f a r q)) ->
  forall e, P e.
Proof.
  intros HB HP HC HF. fix IH 1. intros [n p i|n p i|n p i v|n p i f a r q].
  - apply HB.
  - apply HP.
  - apply HC.
  - apply HF. revert a. fix children 1. intros [|c a].
    + constructor.
    + constructor; [apply IH | apply children].
Qed.

(** ** Identity, equality and hashing *)

Lemma Expression_eq_true (a b : Expression) :
  Expression_eq a b = true <-> _id a = _id b.
Proof. unfold Expression_eq. apply String.eqb_eq. Qed.

Lemma Expression_eq_false (a b : Expression) :
  Expression_eq a b = false <-> _id a <> _id b.
Proof. unfold Expression_eq. apply String.eqb_neq. Qed.

Lemma same_key_eq (stored probe : Expression) :
  same_key hash stored probe = Expression_eq stored probe.
Proof.
  unfold same_key, Expression_hash.
  destruct (Expression_eq stored probe) eqn:E.
  - apply Expression_eq_true in E. rewrite E.
    rewrite bool_decide_eq_true_2; reflexivity.
  - apply andb_false_r.
Qed.

Lemma same_key_probe (stored k1 k2 : Expression) :
  _id k1 = _id k2 -> same_key hash stored k1 = same_key hash stored k2.
Proof.
  intros E. rewrite !same_key_eq. unfold Expression_eq. now rewrite E.
Qed.

Lemma id_or_default_explicit (i name : string) (self : N) :
  i <> EmptyString -> id_or_default (Some i) name self = i.
Proof.
  intros Hi. unfold id_or_default. destruct (decide (i = EmptyString)).
  - contradiction.
  - reflexivity.
Qed.

Lemma constructed_with_id_spec (i : string) (e : Expression) :
  i <> EmptyString -> constructed_with_id i e -> _id e = i.
Proof.
  intros Hi [(self & name & p & ->)|(self & name & f & a & p & r & q & H)].
  - simpl. now apply id_or_default_explicit.
  - unfold ComputedExpression__init in H.
    destruct p as [p|]; [|destruct (f (map proxy a))];
      inversion H; subst; simpl; now apply id_or_default_explicit.
Qed.

(** ** Dictionaries *)

Lemma dict_get_probe (d : Dict) (k1 k2 : Expression) :
  _id k1 = _id k2 -> dict_get hash d k1 = dict_get hash d k2.
Proof.
  intros E. induction d as [|[k v] d IH]; simpl.
  - reflexivity.
  - rewrite (same_key_probe k k1 k2 E). now rewrite IH.
Qed.

Lemma dict_get_set_same (d : Dict) (k : Expression) (v : Value) :
  dict_get hash (dict_set hash d k v) k = Some v.
Proof.
  induction d as [|[k' v'] d IH]; simpl.
  - rewrite same_key_eq. unfold Expression_eq. now rewrite String.eqb_refl.
  - destruct (same_key hash k' k) eqn:E; simpl; rewrite E; [reflexivity|exact IH].
Qed.

Lemma dict_get_set_other (d : Dict) (k c : Expression) (v : Value) :
  _id c <> _id k -> dict_get hash (dict_set hash d k v) c = dict_get hash d c.
Proof.
  intros Hne. induction d as [|[k' v'] d IH]; simpl.
  - rewrite same_key_eq.
    assert (Expression_eq k c = false) as ->; [|reflexivity].
    apply Expression_eq_false. congruence.
  - destruct (same_key hash k' k) eqn:E; simpl.
    + rewrite same_key_eq in E. apply Expression_eq_true in E.
      assert (same_key hash k' c = false) as ->; [|reflexivity].
      rewrite same_key_eq. apply Expression_eq_false. congruence.
    + now rewrite IH.
Qed.

Lemma dict_set_absent (d : Dict) (k : Expression) (v : Value) :
  dict_get hash d k = None -> dict_set hash d k v = d ++ [(k, v)].
Proof.
  induction d as [|[k' v'] d IH]; simpl; intros H.
  - reflexivity.
  - destruct (same_key hash k' k); [discriminate|]. now rewrite IH.
Qed.

(** ** Sessions and the store of dictionaries *)

Lemma bindings_of_store_same (s : Session) (d : Dict) (w : World) :
  bindings_of s (store_dict (_bindings s) d w) = d.
Proof.
  unfold bindings_of, store_dict. simpl. now rewrite lookup_insert_eq.
Qed.

Lemma bindings_of_store_other (s : Session) (l : positive) (d : Dict)
    (w : World) :
  l <> _bindings s -> bindings_of s (store_dict l d w) = bindings_of s w.
Proof.
  intros Hl. unfold bindings_of, store_dict. simpl.
  now rewrite lookup_insert_ne.
Qed.

Lemma Session__init_fresh (bindings : option positive) (w w1 : World)
    (s : Session) :
  Session__init bindings w = (Ok s, w1) ->
  dicts w !! _bindings s = None
  /\ w1 = store_dict (_bindings s) (or_empty bindings w) w.
Proof.
  unfold Session__init. intros H. inversion H; subst; clear H. simpl.
  split; [|reflexivity].
  apply not_elem_of_dom. apply is_fresh.
Qed.

Lemma lookup_unfold (s : Session) (e : Expression) (w : World) :
  lookup hash s e w =
    match dict_get hash (bindings_of s w) e with
    | Some v => (Ok v, w)
    | None => (Raise (KeyError (_id e)), w)
    end.
Proof. reflexivity. Qed.

Lemma evaluate_at_placeholder (name : string) (px : Value) (ident : string)
    (s : Session) (w : World) :
  evaluate_at hash (Placeholder name px ident) s w
  = lookup hash s (Placeholder name px ident) w.
Proof. reflexivity. Qed.

(** [evaluate_at] reads the dictionary of its session and nothing else,
    writes no dictionary, and only adds to the log. *)
Lemma evaluate_at_frame (e : Expression) (s : Session) :
  forall wa wb : World,
    bindings_of s wa = bindings_of s wb ->
    exists r log,
      evaluate_at hash e s wa = (r, mkWorld (dicts wa) (calls wa ++ log))
      /\ evaluate_at hash e s wb = (r, mkWorld (dicts wb) (calls wb ++ log)).
Proof.
  induction e as [n p i|n p i|n p i v|n p i f a r q IH]
    using Expression_tree_ind; intros wa wb Hab.
  - exists (Raise (NotImplementedError "Expression")), [].
    rewrite !app_nil_r. destruct wa, wb. split; reflexivity.
  - simpl. rewrite !lookup_unfold, <- Hab.
    destruct (dict_get hash (bindings_of s wa) (Placeholder n p i)) as [v|].
    + exists (Ok v), []. rewrite !app_nil_r. destruct wa, wb. now split.
    + exists (Raise (KeyError i)), []. rewrite !app_nil_r.
      destruct wa, wb. now split.
  - exists (Ok v), []. rewrite !app_nil_r. destruct wa, wb. now split.
  - simpl.
    assert (forall wa wb : World,
      bindings_of s wa = bindings_of s wb ->
      exists rs log,
        mapM (fun arg => evaluate_at hash arg s) a wa
          = (rs, mkWorld (dicts wa) (calls wa ++ log))
        /\ mapM (fun arg => evaluate_at hash arg s) a wb
          = (rs, mkWorld (dicts wb) (calls wb ++ log))) as Hargs.
    { clear wa wb Hab. induction IH as [|c a Hc _ IHa]; intros wa wb Hab.
      - exists (Ok []), []. rewrite !app_nil_r. destruct wa, wb. now split.
      - simpl. unfold bind at 1 3.
        destruct (Hc wa wb Hab) as (rc & logc & -> & ->).
        destruct rc as [vc|x].
        + unfold bind at 1 2.
          destruct (IHa (mkWorld (dicts wa) (calls wa ++ logc))
                        (mkWorld (dicts wb) (calls wb ++ logc)))
            as (rs & logs & -> & ->); [exact Hab|]. simpl.
          destruct rs as [vs|x].
          * exists (Ok (vc :: vs)), (logc ++ logs).
            rewrite !app_assoc. now split.
          * exists (Raise x), (logc ++ logs). rewrite !app_assoc. now split.
        + exists (Raise x), logc. now split. }
    unfold bind. destruct (Hargs wa wb Hab) as (rs & log & -> & ->).
    destruct rs as [vs|x].
    + exists (f vs), (log ++ [i]). unfold apply_func. simpl.
      rewrite !app_assoc. now split.
    + exists (Raise x), log. now split.
Qed.

Lemma evaluate_at_dicts (e : Expression) (s : Session) (w : World) :
  dicts (evaluate_at hash e s w).2 = dicts w.
Proof.
  destruct (evaluate_at_frame e s w w eq_refl) as (r & log & -> & _).
  reflexivity.
Qed.

Lemma evaluate_at_bindings (e : Expression) (s s' : Session) (w : World) :
  bindings_of s' (evaluate_at hash e s w).2 = bindings_of s' w.
Proof. unfold bindings_of. now rewrite evaluate_at_dicts. Qed.

(** [Session.evaluate], case by case. *)
Lemma evaluate_unfold (s : Session) (e : Expression) (w : World) :
  evaluate hash s e w =
    match dict_get hash (bindings_of s w) e with
    | Some v => (Ok v, w)
    | None =>
        match evaluate_at hash e s w with
        | (Ok v, w1) =>
            (Ok v, store_dict (_bindings s)
                     (dict_set hash (bindings_of s w1) e v) w1)
        | (Raise x, w1) => (Raise x, w1)
        end
    end.
Proof.
  unfold evaluate, bind, contains, getitem, setitem, ret,
    dict_contains.
  destruct (dict_get hash (bindings_of s w) e) as [v|] eqn:E; simpl.
  - now rewrite E.
  - destruct (evaluate_at hash e s w) as [[v|x] w1]; [|reflexivity].
    now rewrite bindings_of_store_same, dict_get_set_same.
Qed.

Lemma evaluate_binds (s : Session) (e : Expression) (w w' : World)
    (v : Value) :
  evaluate hash s e w = (Ok v, w') ->
  dict_get hash (bindings_of s w') e = Some v.
Proof.
  rewrite evaluate_unfold.
  destruct (dict_get hash (bindings_of s w) e) as [v0|] eqn:E.
  - intros H. inversion H; subst. exact E.
  - destruct (evaluate_at hash e s w) as [[v1|x] w1]; intros H;
      inversion H; subst.
    rewrite bindings_of_store_same. apply dict_get_set_same.
Qed.

Lemma evaluate_bound (s : Session) (e : Expression) (w : World) (v : Value) :
  dict_get hash (bindings_of s w) e = Some v ->
  evaluate hash s e w = (Ok v, w).
Proof. intros E. rewrite evaluate_unfold. now rewrite E. Qed.

(** [evaluate] reads the dictionary of its session and nothing else. *)
Lemma evaluate_frame (s : Session) (e : Expression) (wa wb : World) :
  bindings_of s wa = bindings_of s wb ->
  (evaluate hash s e wa).1 = (evaluate hash s e wb).1
  /\ bindings_of s (evaluate hash s e wa).2
     = bindings_of s (evaluate hash s e wb).2.
Proof.
  intros Hab. rewrite !evaluate_unfold, <- Hab.
  destruct (dict_get hash (bindings_of s wa) e) as [v|]; [now split|].
  destruct (evaluate_at_frame e s wa wb Hab) as (r & log & -> & ->).
  destruct r as [v|x]; simpl.
  - rewrite !bindings_of_store_same. unfold bindings_of at 1 2. simpl.
    fold (bindings_of s wa). fold (bindings_of s wb). now rewrite Hab.
  - split; [reflexivity|exact Hab].
Qed.

(** [evaluate] writes the dictionary of its session and no other. *)
Lemma evaluate_other_dicts (s : Session) (e : Expression) (w : World)
    (l : positive) :
  l <> _bindings s -> dicts (evaluate hash s e w).2 !! l = dicts w !! l.
Proof.
  intros Hl. rewrite evaluate_unfold.
  destruct (dict_get hash (bindings_of s w) e) as [v|]; [reflexivity|].
  pose proof (evaluate_at_dicts e s w) as Hd.
  destruct (evaluate_at hash e s w) as [[v|x] w1]; simpl in *.
  - rewrite lookup_insert_ne by congruence. now rewrite Hd.
  - now rewrite Hd.
Qed.

(** ** The claims of the specification *)

(** C2 (as amended): two expressions constructed with the same non-empty
    explicit identity string compare equal under [__eq__], have equal
    hashes, and are one key for every dictionary and every session: a value
    bound or computed under one is what [evaluate] and [lookup] return for
    the other, whatever their other fields are. *)
Theorem identity_equality (i : string) (e1 e2 : Expression) :
  i <> EmptyString ->
  constructed_with_id i e1 ->
  constructed_with_id i e2 ->
  Expression_eq e1 e2 = true
  /\ Expression_ne e1 e2 = false
  /\ Expression_hash hash e1 = Expression_hash hash e2
  /\ (forall (d : Dict) (v : Value),
        dict_get hash d e1 = dict_get hash d e2
        /\ dict_get hash (dict_set hash d e1 v) e2 = Some v)
  /\ (forall (s : Session) (w : World),
        lookup hash s e1 w = lookup hash s e2 w)
  /\ (forall (s : Session) (w : World) (v : Value),
        lookup hash s e1 w = (Ok v, w) -> evaluate hash s e2 w = (Ok v, w))
  /\ (forall (s : Session) (w w' : World) (v : Value),
        evaluate hash s e1 w = (Ok v, w') ->
        evaluate hash s e2 w' = (Ok v, w')
        /\ lookup hash s e2 w' = (Ok v, w')).
Proof.
  intros Hi H1 H2.
  assert (_id e1 = _id e2) as E.
  { rewrite (constructed_with_id_spec i e1 Hi H1).
    now rewrite (constructed_with_id_spec i e2 Hi H2). }
  assert (Expression_eq e1 e2 = true) as Heq by now apply Expression_eq_true.
  split; [exact Heq|].
  split; [unfold Expression_ne; now rewrite Heq|].
  split; [unfold Expression_hash; now rewrite E|].
  split.
  { intros d v. split; [now apply dict_get_probe|].
    rewrite <- (dict_get_probe (dict_set hash d e1 v) e1 e2 E).
    apply dict_get_set_same. }
  split.
  { intros s w. rewrite !lookup_unfold.
    now rewrite (dict_get_probe (bindings_of s w) e1 e2 E), E. }
  split.
  { intros s w v. rewrite lookup_unfold.
    destruct (dict_get hash (bindings_of s w) e1) as [v1|] eqn:G;
      intros H; inversion H; subst.
    apply evaluate_bound. now rewrite <- (dict_get_probe _ e1 e2 E). }
  intros s w w' v H. apply evaluate_binds in H.
  rewrite (dict_get_probe _ e1 e2 E) in H.
  split; [now apply evaluate_bound|].
  rewrite lookup_unfold. now rewrite H.
Qed.

(** C3: a placeholder evaluates to the value its session was given for it:
    in a session made from initial bindings that map [p] to [v], both
    [evaluate] and [evaluate_at] return [v].  In a session with no binding
    for [p] they fail with the [KeyError] of the session lookup, and the
    bindings (the whole state) are as before. *)
Theorem placeholder_binding_round_trip (name : string) (px : Value)
    (ident : string) :
  let p := Placeholder name px ident in
  (forall (v : Value) (m : positive) (d : Dict) (w w1 : World) (s : Session),
      dicts w !! m = Some d ->
      dict_get hash d p = Some v ->
      Session__init (Some m) w = (Ok s, w1) ->
      evaluate hash s p w1 = (Ok v, w1)
      /\ evaluate_at hash p s w1 = (Ok v, w1))
  /\ (forall (s : Session) (w : World),
        dict_get hash (bindings_of s w) p = None ->
        evaluate hash s p w = (Raise (KeyError ident), w)
        /\ evaluate_at hash p s w = (Raise (KeyError ident), w)
        /\ lookup hash s p w = (Raise (KeyError ident), w)).
Proof.
  intros p. split.
  - intros v m d w w1 s Hm Hv Hs.
    apply Session__init_fresh in Hs as [_ ->].
    assert (dict_get hash
              (bindings_of s
                 (store_dict (_bindings s) (or_empty (Some m) w) w)) p
            = Some v) as G.
    { rewrite bindings_of_store_same. unfold or_empty. rewrite Hm.
      exact Hv. }
    split; [now apply evaluate_bound|].
    unfold p in *. rewrite evaluate_at_placeholder, lookup_unfold.
    now rewrite G.
  - intros s w Hnone.
    assert (lookup hash s p w = (Raise (KeyError ident), w)) as L.
    { rewrite lookup_unfold. now rewrite Hnone. }
    split; [|split; [exact L|exact L]].
    rewrite evaluate_unfold, Hnone. unfold p in *.
    rewrite evaluate_at_placeholder. now rewrite L.
Qed.

(** C4: once [evaluate] has returned a value for [root], evaluating [root]
    again in the same session returns that value and leaves the whole state
    as it is: no dictionary changes and no function is applied (the log of
    applications is part of the state). *)
Theorem evaluate_idempotent (s : Session) (root : Expression) (w w' : World)
    (v : Value) :
  evaluate hash s root w = (Ok v, w') ->
  evaluate hash s root w' = (Ok v, w').
Proof.
  intros H. apply evaluate_bound. exact (evaluate_binds s root w w' v H).
Qed.

(** C5: a [ComputedExpression] constructed without the two flag arguments
    requires partitioning by index and does not preserve it; one built by
    [elementwise_expression] does not require it and preserves it; for a
    placeholder and for a constant, as constructed and as any object of
    their class, both predicates are false. *)
Theorem partitioning_flag_defaults :
  (forall self name func args px ident (e : Expression),
      ComputedExpression__init self name func args px ident None None = Ok e ->
      requires_partition_by_index e = Ok true
      /\ preserves_partition_by_index e = Ok false)
  /\ (forall self name func args (e : Expression),
        elementwise_expression self name func args = Ok e ->
        requires_partition_by_index e = Ok false
        /\ preserves_partition_by_index e = Ok true)
  /\ (forall self (px : Value),
        requires_partition_by_index (PlaceholderExpression__init self px)
          = Ok false
        /\ preserves_partition_by_index (PlaceholderExpression__init self px)
          = Ok false)
  /\ (forall self (v : Value) px,
        requires_partition_by_index (ConstantExpression__init self v px)
          = Ok false
        /\ preserves_partition_by_index (ConstantExpression__init self v px)
          = Ok false)
  /\ (forall name (px : Value) ident v,
        requires_partition_by_index (Placeholder name px ident) = Ok false
        /\ preserves_partition_by_index (Placeholder name px ident) = Ok false
        /\ requires_partition_by_index (Constant name px ident v) = Ok false
        /\ preserves_partition_by_index (Constant name px ident v)
           = Ok false).
Proof.
  split; [|split; [|split; [|split; [|now repeat split]]]].
  - intros self name func a px ident e H.
    unfold ComputedExpression__init in H.
    destruct px as [p|]; [|destruct (func (map proxy a))];
      inversion H; subst; now split.
  - intros self name func a e H.
    unfold elementwise_expression, ComputedExpression__init in H.
    destruct (func (map proxy a)); inversion H; subst; now split.
  - intros self px. now split.
  - intros self v px. now split.
Qed.

(** C6: [evaluate_at] on a constant returns the stored value in every
    session and every state, and the state after the call is the state
    before it. *)
Theorem constant_evaluation :
  (forall self (v : Value) px (s : Session) (w : World),
      evaluate_at hash (ConstantExpression__init self v px) s w = (Ok v, w))
  /\ (forall name px ident (v : Value) (s : Session) (w : World),
        evaluate_at hash (Constant name px ident v) s w = (Ok v, w)).
Proof. split; reflexivity. Qed.

(** C7: when no proxy is given, the proxy of a [ComputedExpression] is the
    result of its function on the proxies of its arguments, in order,
    computed by the constructor (which succeeds exactly when that call
    does); the proxy of a [ConstantExpression] is its value. *)
Theorem proxy_defaulting :
  (forall self name func args ident requires preserves (e : Expression),
      ComputedExpression__init self name func args None ident
        requires preserves = Ok e ->
      func (map proxy args) = Ok (proxy e))
  /\ (forall self name func (args : list Expression) ident requires preserves
             (p : Value),
        func (map proxy args) = Ok p ->
        exists e,
          ComputedExpression__init self name func args None ident
            requires preserves = Ok e
          /\ proxy e = p)
  /\ (forall self (v : Value), proxy (ConstantExpression__init self v None) = v).
Proof.
  split; [|split].
  - intros self name func a ident r q e H.
    unfold ComputedExpression__init in H.
    destruct (func (map proxy a)) as [p|x]; inversion H; subst. reflexivity.
  - intros self name func a ident r q p H.
    unfold ComputedExpression__init. rewrite H. eexists. now split.
  - reflexivity.
Qed.

(** C8: on a direct instance of [Expression], [evaluate_at] (in every
    session and state), [requires_partition_by_index] and
    [preserves_partition_by_index] raise [NotImplementedError]. *)
Theorem abstract_method_misuse (self : N) (name : string) (px : Value)
    (ident : option string) (s : Session) (w : World) :
  let e := Expression__init self name px ident in
  evaluate_at hash e s w = (Raise (NotImplementedError "Expression"), w)
  /\ requires_partition_by_index e = Raise (NotImplementedError "Expression")
  /\ preserves_partition_by_index e
     = Raise (NotImplementedError "Expression").
Proof. repeat split. Qed.

(** C9: the constructor gives the session a dictionary of its own, holding
    the items of the mapping [m] it was made from.  Whatever is stored in
    [m] afterwards, [evaluate] and [lookup] on the session return the same
    results and leave the session with the same bindings; and neither of
    them changes [m]. *)
Theorem initial_bindings_are_copied (m : positive) (d : Dict) (w w1 : World)
    (s : Session) :
  dicts w !! m = Some d ->
  Session__init (Some m) w = (Ok s, w1) ->
  _bindings s <> m
  /\ bindings_of s w1 = d
  /\ dicts w1 !! m = Some d
  /\ (forall (d' : Dict) (w' : World) (expr : Expression),
        bindings_of s (store_dict m d' w') = bindings_of s w'
        /\ (evaluate hash s expr (store_dict m d' w')).1
           = (evaluate hash s expr w').1
        /\ bindings_of s (evaluate hash s expr (store_dict m d' w')).2
           = bindings_of s (evaluate hash s expr w').2
        /\ (lookup hash s expr (store_dict m d' w')).1
           = (lookup hash s expr w').1)
  /\ (forall (w' : World) (expr : Expression),
        dicts (evaluate hash s expr w').2 !! m = dicts w' !! m
        /\ dicts (lookup hash s expr w').2 !! m = dicts w' !! m).
Proof.
  intros Hm Hs. apply Session__init_fresh in Hs as [Hfresh ->].
  assert (m <> _bindings s) as Hne by (intros ->; congruence).
  split; [congruence|].
  split; [rewrite bindings_of_store_same; unfold or_empty; now rewrite Hm|].
  split; [unfold store_dict; simpl; now rewrite lookup_insert_ne by congruence|].
  split.
  - intros d' w' expr.
    pose proof (bindings_of_store_other s m d' w' Hne) as Hb.
    split; [exact Hb|].
    destruct (evaluate_frame s expr _ _ Hb) as [Hr Hd].
    split; [exact Hr|]. split; [exact Hd|].
    rewrite !lookup_unfold, Hb.
    now destruct (dict_get hash (bindings_of s w') expr).
  - intros w' expr. split; [now apply evaluate_other_dicts|].
    rewrite lookup_unfold.
    now destruct (dict_get hash (bindings_of s w') expr).
Qed.

(** C10 (as amended): [evaluate] on [root] leaves the bindings of the
    session as they were or adds one entry, whose key is [root] and whose
    value is the result.  A child of [root] whose identity differs from
    that of [root], and which was not bound before the call, is not bound
    after it: [lookup] still raises [KeyError]. *)
Theorem only_root_is_cached (s : Session) (root : Expression) (w : World) :
  let w' := (evaluate hash s root w).2 in
  (bindings_of s w' = bindings_of s w
   \/ exists v,
        (evaluate hash s root w).1 = Ok v
        /\ dict_get hash (bindings_of s w) root = None
        /\ bindings_of s w' = bindings_of s w ++ [(root, v)])
  /\ (forall c : Expression,
        c ∈ args root ->
        Expression_eq c root = false ->
        dict_get hash (bindings_of s w) c = None ->
        lookup hash s c w' = (Raise (KeyError (_id c)), w')).
Proof.
  intros w'.
  assert (bindings_of s w' = bindings_of s w
          \/ exists v,
               (evaluate hash s root w).1 = Ok v
               /\ dict_get hash (bindings_of s w) root = None
               /\ bindings_of s w' = bindings_of s w ++ [(root, v)]) as Hw.
  { subst w'. rewrite evaluate_unfold.
    destruct (dict_get hash (bindings_of s w) root) as [v|] eqn:E;
      [now left|].
    pose proof (evaluate_at_bindings root s s w) as Hb.
    destruct (evaluate_at hash root s w) as [[v|x] w1]; simpl in *.
    - right. exists v. rewrite bindings_of_store_same, Hb.
      now rewrite dict_set_absent.
    - now left. }
  split; [exact Hw|].
  intros c _ Hc Hnone. rewrite lookup_unfold.
  assert (dict_get hash (bindings_of s w') c = None) as ->; [|reflexivity].
  destruct Hw as [->|(v & _ & Habs & ->)]; [exact Hnone|].
  apply Expression_eq_false in Hc.
  rewrite <- (dict_set_absent (bindings_of s w) root v Habs).
  now rewrite dict_get_set_other.
Qed.

End Properties.

(** * The claims on the test programs *)

(** C1: the claim fails on [evaluate_at], which asks each child for its
    value directly and not through [Session.evaluate].  With a child [a]
    shared by two paths, in [f(a, a)] and in [f(g(a), h(a))], one call of
    [evaluate] on the root applies the function of [a] twice; and a value
    bound in the session for an intermediate expression is not used, the
    expression is computed again. *)
Theorem shared_child_applied_twice :
  (shared_twice empty_world).1 = Ok 2%Z
  /\ applications "a_1" (shared_twice empty_world).2 = 2
  /\ (diamond empty_world).1 = Ok 4%Z
  /\ applications "a_1" (diamond empty_world).2 = 2
  /\ (bound_intermediate empty_world).1 = Ok 2%Z
  /\ applications "a_1" (bound_intermediate empty_world).2 = 1.
Proof. vm_compute. repeat split. Qed.

(** C2, counterexample: the empty string given as [_id] is replaced by the
    default identity, so two objects constructed with it are not equal and
    a value bound under one is not found under the other. *)
Lemma empty_identity_not_equal :
  constructed_with_id EmptyString unnamed_one
  /\ constructed_with_id EmptyString unnamed_two
  /\ Expression_eq unnamed_one unnamed_two = false
  /\ dict_get length_hash [(unnamed_one, 7%Z)] unnamed_two = None.
Proof.
  split; [left; exists 1%N, "x", 0%Z; reflexivity|].
  split; [left; exists 2%N, "x", 0%Z; reflexivity|].
  split; vm_compute; reflexivity.
Qed.

Lemma identity_equality_witness :
  "x" <> EmptyString
  /\ constructed_with_id "x" shadow_child
  /\ constructed_with_id "x" shadow_root
  /\ Expression_eq shadow_child shadow_root = true
  /\ Expression_hash length_hash shadow_child
     = Expression_hash length_hash shadow_root.
Proof.
  assert ("x" <> EmptyString) as Hx by discriminate.
  assert (constructed_with_id "x" shadow_child) as Hc.
  { right. exists 1%N, "c", one, [], (Some 0%Z), None, None. reflexivity. }
  assert (constructed_with_id "x" shadow_root) as Hr.
  { right. exists 2%N, "r", incr, [shadow_child], (Some 0%Z), None, None.
    reflexivity. }
  destruct (identity_equality length_hash "x" shadow_child shadow_root
              Hx Hc Hr) as (Heq & _ & Hh & _).
  split; [exact Hx|]. split; [exact Hc|]. split; [exact Hr|].
  split; [exact Heq|exact Hh].
Defined.

Lemma placeholder_binding_round_trip_witness :
  (bound_world.(dicts) !! 1%positive = Some [(the_placeholder, 42%Z)]
   /\ dict_get length_hash [(the_placeholder, 42%Z)] the_placeholder
      = Some 42%Z
   /\ Session__init (Some 1%positive) bound_world
      = (Ok second_session, bound_session_world)
   /\ evaluate length_hash second_session the_placeholder bound_session_world
      = (Ok 42%Z, bound_session_world))
  /\ (dict_get length_hash (bindings_of first_session session_world)
        the_placeholder = None
      /\ evaluate length_hash first_session the_placeholder session_world
         = (Raise (KeyError "placeholder_5"), session_world)).
Proof.
  destruct (placeholder_binding_round_trip length_hash
              "placeholder" 0%Z "placeholder_5") as [Hbound Hfree].
  assert (bound_world.(dicts) !! 1%positive = Some [(the_placeholder, 42%Z)])
    as H1 by (vm_compute; reflexivity).
  assert (dict_get length_hash [(the_placeholder, 42%Z)] the_placeholder
          = Some 42%Z) as H2 by (vm_compute; reflexivity).
  assert (Session__init (Some 1%positive) bound_world
          = (Ok second_session, bound_session_world)) as H3
    by (vm_compute; reflexivity).
  assert (dict_get length_hash (bindings_of first_session session_world)
            the_placeholder = None) as H4 by (vm_compute; reflexivity).
  split.
  - split; [exact H1|]. split; [exact H2|]. split; [exact H3|].
    exact (proj1 (Hbound 42%Z 1%positive _ _ _ _ H1 H2 H3)).
  - split; [assumption|]. exact (proj1 (Hfree _ _ H4)).
Defined.

Lemma evaluate_idempotent_witness :
  evaluate length_hash first_session two_plus_three session_world
    = (Ok 5%Z, after_sum)
  /\ evaluate length_hash first_session two_plus_three after_sum
     = (Ok 5%Z, after_sum).
Proof.
  assert (evaluate length_hash first_session two_plus_three session_world
          = (Ok 5%Z, after_sum)) as H by (vm_compute; reflexivity).
  split; [exact H|].
  exact (evaluate_idempotent length_hash _ _ _ _ _ H).
Defined.

Lemma partitioning_flag_defaults_witness :
  (ComputedExpression__init 9 "add" add [two; three] None None None None
     = Ok two_plus_three
   /\ requires_partition_by_index two_plus_three = Ok true
   /\ preserves_partition_by_index two_plus_three = Ok false)
  /\ (elementwise_expression 9 "add" add [two; three]
        = Ok elementwise_two_plus_three
      /\ requires_partition_by_index elementwise_two_plus_three = Ok false
      /\ preserves_partition_by_index elementwise_two_plus_three = Ok true).
Proof.
  destruct (partitioning_flag_defaults (Value:=Z)) as (Hc & He & _).
  assert (ComputedExpression__init 9 "add" add [two; three]
            None None None None = Ok two_plus_three) as H1
    by (vm_compute; reflexivity).
  assert (elementwise_expression 9 "add" add [two; three]
          = Ok elementwise_two_plus_three) as H2
    by (vm_compute; reflexivity).
  split.
  - split; [exact H1|]. exact (Hc _ _ _ _ _ _ _ H1).
  - split; [exact H2|]. exact (He _ _ _ _ _ H2).
Defined.

Lemma proxy_defaulting_witness :
  ComputedExpression__init 9 "add" add [two; three] None None None None
    = Ok two_plus_three
  /\ add (map proxy [two; three]) = Ok (proxy two_plus_three)
  /\ add (map proxy [two; three]) = Ok 5%Z
  /\ exists e,
       ComputedExpression__init 9 "add" add [two; three] None None None None
         = Ok e
       /\ proxy e = 5%Z.
Proof.
  destruct (proxy_defaulting (Value:=Z)) as (Hp & Hex & _).
  assert (ComputedExpression__init 9 "add" add [two; three]
            None None None None = Ok two_plus_three) as H1
    by (vm_compute; reflexivity).
  assert (add (map proxy [two; three]) = Ok 5%Z) as H2
    by (vm_compute; reflexivity).
  split; [exact H1|].
  split; [exact (Hp _ _ _ _ _ _ _ _ H1)|].
  split; [exact H2|].
  exact (Hex 9%N "add" add [two; three] None None None 5%Z H2).
Defined.

Lemma initial_bindings_are_copied_witness :
  bound_world.(dicts) !! 1%positive = Some [(the_placeholder, 42%Z)]
  /\ Session__init (Some 1%positive) bound_world
     = (Ok second_session, bound_session_world)
  /\ bindings_of second_session bound_session_world
     = [(the_placeholder, 42%Z)]
  /\ (evaluate length_hash second_session the_placeholder
        (store_dict 1%positive [] bound_session_world)).1
     = (evaluate length_hash second_session the_placeholder
          bound_session_world).1
  /\ dicts (evaluate length_hash second_session two_plus_three
              bound_session_world).2 !! 1%positive
     = dicts bound_session_world !! 1%positive.
Proof.
  assert (bound_world.(dicts) !! 1%positive = Some [(the_placeholder, 42%Z)])
    as H1 by (vm_compute; reflexivity).
  assert (Session__init (Some 1%positive) bound_world
          = (Ok second_session, bound_session_world)) as H2
    by (vm_compute; reflexivity).
  destruct (initial_bindings_are_copied length_hash _ _ _ _ _ H1 H2)
    as (_ & Hcopy & _ & Hread & Hwrite).
  split; [exact H1|]. split; [exact H2|]. split; [exact Hcopy|].
  split.
  - exact (proj1 (proj2 (Hread [] bound_session_world the_placeholder))).
  - exact (proj1 (Hwrite bound_session_world two_plus_three)).
Defined.

(** C10, counterexample: a child constructed with the identity of its
    parent is not bound before the parent is evaluated and is bound to the
    value of the parent afterwards. *)
Lemma child_sharing_root_identity_is_bound :
  ComputedExpression__init 1 "c" one [] (Some 0%Z) (Some "x") None None
    = Ok shadow_child
  /\ ComputedExpression__init 2 "r" incr [shadow_child] (Some 0%Z) (Some "x")
       None None = Ok shadow_root
  /\ shadow_child ∈ args shadow_root
  /\ (lookup length_hash first_session shadow_child session_world).1
     = Raise (KeyError "x")
  /\ (evaluate length_hash first_session shadow_root session_world).1
     = Ok 2%Z
  /\ (lookup length_hash first_session shadow_child
        (evaluate length_hash first_session shadow_root session_world).2).1
     = Ok 2%Z.
Proof.
  split; [reflexivity|]. split; [reflexivity|].
  split; [apply list_elem_of_here|].
  vm_compute. repeat split.
Qed.

Lemma only_root_is_cached_witness :
  two ∈ args two_plus_three
  /\ Expression_eq two two_plus_three = false
  /\ dict_get length_hash (bindings_of first_session session_world) two = None
  /\ lookup length_hash first_session two after_sum
     = (Raise (KeyError "constant_7"), after_sum)
  /\ bindings_of first_session after_sum = [(two_plus_three, 5%Z)].
Proof.
  assert (two ∈ args two_plus_three) as H1 by apply list_elem_of_here.
  assert (Expression_eq two two_plus_three = false) as H2
    by (vm_compute; reflexivity).
  assert (dict_get length_hash (bindings_of first_session session_world) two
          = None) as H3 by (vm_compute; reflexivity).
  destruct (only_root_is_cached length_hash first_session two_plus_three
              session_world) as [_ Hchild].
  split; [exact H1|]. split; [exact H2|]. split; [exact H3|].
  split; [exact (Hchild two H1 H2 H3)|].
  vm_compute. reflexivity.
Defined.

(** * Further properties of the module *)

Section Further.

Context {Value : Type}.
Variable hash : string -> Z.

Local Abbreviation Expression := (Expression Value).
Local Abbreviation World := (World Value).
Local Abbreviation Dict := (list (Expression * Value)).

(** ** Identities *)

Lemma default_id_not_empty (name : string) (self : N) :
  default_id name self <> EmptyString.
Proof. unfold default_id. destruct name; discriminate. Qed.

Lemma id_or_default_not_empty (ident : option string) (name : string)
    (self : N) :
  id_or_default ident name self <> EmptyString.
Proof.
  unfold id_or_default. destruct ident as [i|].
  - destruct (decide (i = EmptyString)); [apply default_id_not_empty|done].
  - apply default_id_not_empty.
Qed.

Lemma pretty_N_go_no_underscore (x : N) (s : string) :
  occurs_in underscore s = false -> occurs_in underscore (pretty_N_go x s) = false.
Proof.
  revert s. induction (N.lt_wf_0 x) as [x _ IH]; intros s Hs.
  destruct (decide (x = 0%N)) as [->|Hx].
  - now rewrite pretty_N_go_0.
  - rewrite pretty_N_go_step by lia. apply IH.
    + apply N.div_lt; lia.
    + simpl. rewrite Hs. unfold pretty_N_char.
      repeat case_match; reflexivity.
Qed.

Lemma pretty_N_no_underscore (x : N) : occurs_in underscore (pretty x) = false.
Proof.
  unfold pretty, pretty_N. destruct (decide (x = 0%N)); [reflexivity|].
  now apply pretty_N_go_no_underscore.
Qed.

Lemma append_nil (t : string) : EmptyString +:+ t = t.
Proof. reflexivity. Qed.

Lemma append_cons (c : Ascii.ascii) (s t : string) :
  String c s +:+ t = String c (s +:+ t).
Proof. reflexivity. Qed.

Lemma occurs_in_app (c : Ascii.ascii) (s t : string) :
  occurs_in c (s +:+ t) = occurs_in c s || occurs_in c t.
Proof.
  induction s as [|c' s IH]; [reflexivity|].
  rewrite append_cons. simpl. rewrite IH. now rewrite orb_assoc.
Qed.

(** The last underscore of a default identity separates the name from
    the address. *)
Lemma split_at_last_underscore (n1 n2 d1 d2 : string) :
  occurs_in underscore d1 = false ->
  occurs_in underscore d2 = false ->
  n1 +:+ "_" +:+ d1 = n2 +:+ "_" +:+ d2 ->
  n1 = n2 /\ d1 = d2.
Proof.
  intros H1 H2. revert n2.
  induction n1 as [|c1 n1 IH]; intros [|c2 n2] E;
    rewrite ?append_cons, ?append_nil in E.
  - injection E as Hd. now split.
  - injection E as Hc Hd. exfalso. rewrite Hd in H1.
    rewrite occurs_in_app in H1. simpl in H1.
    rewrite orb_true_r in H1. discriminate.
  - injection E as Hc Hd. exfalso. rewrite <- Hd in H2.
    rewrite occurs_in_app in H2. simpl in H2.
    rewrite orb_true_r in H2. discriminate.
  - injection E as Hc Hn. destruct (IH n2 Hn) as [-> ->]. now subst.
Qed.

Lemma default_id_inj (n1 n2 : string) (a1 a2 : N) :
  default_id n1 a1 = default_id n2 a2 -> n1 = n2 /\ a1 = a2.
Proof.
  unfold default_id. intros E.
  apply split_at_last_underscore in E as [-> E];
    try apply pretty_N_no_underscore.
  split; [reflexivity|]. now apply (inj pretty).
Qed.

(** X1: [__eq__] is an equivalence relation that agrees with [__hash__]:
    it is reflexive, symmetric and transitive, equal expressions have equal
    hashes, and [__ne__] holds exactly when the identities differ. *)
Theorem eq_is_an_equivalence_consistent_with_hash :
  (forall a : Expression, Expression_eq a a = true)
  /\ (forall a b : Expression, Expression_eq a b = Expression_eq b a)
  /\ (forall a b c : Expression,
        Expression_eq a b = true -> Expression_eq b c = true ->
        Expression_eq a c = true)
  /\ (forall a b : Expression,
        Expression_eq a b = true ->
        Expression_hash hash a = Expression_hash hash b)
  /\ (forall a b : Expression,
        Expression_ne a b = true <-> _id a <> _id b).
Proof.
  split; [|split; [|split; [|split]]].
  - intros a. now apply Expression_eq_true.
  - intros a b. unfold Expression_eq. apply String.eqb_sym.
  - intros a b c Hab Hbc. apply Expression_eq_true.
    apply Expression_eq_true in Hab, Hbc. congruence.
  - intros a b Hab. apply Expression_eq_true in Hab.
    unfold Expression_hash. now rewrite Hab.
  - intros a b. unfold Expression_ne. rewrite negb_true_iff.
    apply Expression_eq_false.
Qed.

(** X2: expressions constructed without an explicit identity are equal
    only when they have the same name and the same address.  So two
    placeholders, or two constants, at different addresses are different
    keys, and a placeholder is never equal to a constant. *)
Theorem default_identities_are_distinct :
  (forall self1 self2 name1 name2 (p1 p2 : Value),
      Expression_eq (Expression__init self1 name1 p1 None)
                    (Expression__init self2 name2 p2 None) = true
      <-> name1 = name2 /\ self1 = self2)
  /\ (forall self1 self2 (p1 p2 : Value),
        Expression_eq (PlaceholderExpression__init self1 p1)
                      (PlaceholderExpression__init self2 p2) = true
        <-> self1 = self2)
  /\ (forall self1 self2 (v1 v2 : Value) p1 p2,
        Expression_eq (ConstantExpression__init self1 v1 p1)
                      (ConstantExpression__init self2 v2 p2) = true
        <-> self1 = self2)
  /\ (forall self1 self2 (p v : Value) px,
        Expression_eq (PlaceholderExpression__init self1 p)
                      (ConstantExpression__init self2 v px) = false)
  /\ (forall self1 self2 name1 name2 f1 f2 a1 a2 p1 p2 r1 r2 q1 q2
             (e1 e2 : Expression),
        ComputedExpression__init self1 name1 f1 a1 p1 None r1 q1 = Ok e1 ->
        ComputedExpression__init self2 name2 f2 a2 p2 None r2 q2 = Ok e2 ->
        (Expression_eq e1 e2 = true <-> name1 = name2 /\ self1 = self2)).
Proof.
  split; [|split; [|split; [|split]]].
  - intros. rewrite Expression_eq_true. simpl. split.
    + apply default_id_inj.
    + now intros [-> ->].
  - intros. rewrite Expression_eq_true. simpl. split.
    + intros E. now apply default_id_inj in E as [_ ->].
    + now intros ->.
  - intros. rewrite Expression_eq_true. simpl. split.
    + intros E. now apply default_id_inj in E as [_ ->].
    + now intros ->.
  - intros. apply Expression_eq_false. simpl. intros E.
    apply default_id_inj in E as [E _]. discriminate.
  - intros self1 self2 name1 name2 f1 f2 a1 a2 p1 p2 r1 r2 q1 q2 e1 e2 H1 H2.
    assert (_id e1 = default_id name1 self1) as E1.
    { unfold ComputedExpression__init in H1.
      destruct p1; [|destruct (f1 (map proxy a1))]; inversion H1; now subst. }
    assert (_id e2 = default_id name2 self2) as E2.
    { unfold ComputedExpression__init in H2.
      destruct p2; [|destruct (f2 (map proxy a2))]; inversion H2; now subst. }
    rewrite Expression_eq_true, E1, E2. split.
    + apply default_id_inj.
    + now intros [-> ->].
Qed.

(** X3: the identity chosen by a constructor is never empty, so it can be
    handed back as an explicit [_id]: an expression rebuilt from the stored
    identity, at any address and with any name, proxy, function and
    arguments, is equal to the original and has the same hash. *)
Theorem identity_survives_reconstruction :
  (forall self name (px : Value) ident,
      _id (Expression__init self name px ident) <> EmptyString)
  /\ (forall self (px : Value),
        _id (PlaceholderExpression__init self px) <> EmptyString)
  /\ (forall self (v : Value) px,
        _id (ConstantExpression__init self v px) <> EmptyString)
  /\ (forall self name f a px ident r q (e : Expression),
        ComputedExpression__init self name f a px ident r q = Ok e ->
        _id e <> EmptyString)
  /\ (forall (e : Expression) self name f a px r q (e' : Expression),
        _id e <> EmptyString ->
        ComputedExpression__init self name f a px (Some (_id e)) r q
          = Ok e' ->
        Expression_eq e' e = true
        /\ Expression_hash hash e' = Expression_hash hash e)
  /\ (forall (e : Expression) self name px,
        _id e <> EmptyString ->
        Expression_eq (Expression__init self name px (Some (_id e))) e
          = true).
Proof.
  split; [|split; [|split; [|split; [|split]]]].
  - intros. apply id_or_default_not_empty.
  - intros. apply id_or_default_not_empty.
  - intros. apply id_or_default_not_empty.
  - intros self name f a px ident r q e H.
    unfold ComputedExpression__init in H.
    destruct px; [|destruct (f (map proxy a))]; inversion H; subst;
      apply id_or_default_not_empty.
  - intros e self name f a px r q e' Hne H.
    assert (_id e' = _id e) as E.
    { apply (constructed_with_id_spec (_id e) e' Hne).
      right. now exists self, name, f, a, px, r, q. }
    split; [now apply Expression_eq_true|].
    unfold Expression_hash. now rewrite E.
  - intros e self name px Hne. apply Expression_eq_true. simpl.
    now apply id_or_default_explicit.
Qed.

(** X4: [elementwise_expression] has no proxy argument, so it raises
    exactly when the function raises on the proxies of the arguments, with
    the same exception; when it returns, the expression holds the given
    arguments in order and the result of the function as its proxy. *)
Theorem elementwise_expression_depends_on_proxy_call (self : N)
    (name : string) (f : list Value -> Res Value) (a : list Expression) :
  (forall x, elementwise_expression self name f a = Raise x
             <-> f (map proxy a) = Raise x)
  /\ (forall e, elementwise_expression self name f a = Ok e ->
                args e = a
                /\ f (map proxy a) = Ok (proxy e)
                /\ _name e = name
                /\ _id e = default_id name self).
Proof.
  unfold elementwise_expression, ComputedExpression__init.
  destruct (f (map proxy a)) as [p|y]; split.
  - intros x. split; discriminate.
  - intros e H. inversion H; subst. now repeat split.
  - intros x. split; intros H; inversion H; reflexivity.
  - intros e H. discriminate.
Qed.

(** ** Evaluation of computed expressions *)

Lemma mapM_constants (s : Session) (cs : list Expression) (vs : list Value)
    (w : World) :
  constants_of cs vs ->
  mapM (fun arg => evaluate_at hash arg s) cs w = (Ok vs, w).
Proof.
  intros H. induction H as [|c v cs vs (n & p & i & ->) _ IH]; simpl.
  - reflexivity.
  - unfold bind at 1. simpl. unfold ret at 1. unfold bind at 1.
    rewrite IH. reflexivity.
Qed.


Lemma evaluate_at_over_constants (name : string) (px : Value)
    (ident : string) (f : list Value -> Res Value) (cs : list Expression)
    (vs : list Value) (r q : bool) (s : Session) (w : World) :
  constants_of cs vs ->
  evaluate_at hash (Computed name px ident f cs r q) s w
  = (f vs, mkWorld (dicts w) (calls w ++ [ident])).
Proof.
  intros Hcs. simpl. unfold bind.
  now rewrite (mapM_constants s cs vs w Hcs).
Qed.

(** X5: a computed expression over constants applies its function once, to
    the values of the constants in argument order, and touches nothing but
    the log.  Through [Session.evaluate], when the expression is not bound
    and the function returns, the result is returned and becomes the one
    new binding of the session. *)
Theorem computed_over_constants (name : string) (px : Value) (ident : string)
    (f : list Value -> Res Value) (cs : list Expression) (vs : list Value)
    (r q : bool) (s : Session) (w : World) :
  constants_of cs vs ->
  evaluate_at hash (Computed name px ident f cs r q) s w
    = (f vs, mkWorld (dicts w) (calls w ++ [ident]))
  /\ (forall v,
        dict_get hash (bindings_of s w) (Computed name px ident f cs r q)
          = None ->
        f vs = Ok v ->
        (evaluate hash s (Computed name px ident f cs r q) w).1 = Ok v
        /\ bindings_of s
             (evaluate hash s (Computed name px ident f cs r q) w).2
           = bindings_of s w ++ [(Computed name px ident f cs r q, v)]).
Proof.
  intros Hcs.
  assert (evaluate_at hash (Computed name px ident f cs r q) s w
          = (f vs, mkWorld (dicts w) (calls w ++ [ident]))) as E.
  { now apply evaluate_at_over_constants. }
  split; [exact E|].
  intros v Hnone Hv. rewrite (evaluate_unfold hash), Hnone, E, Hv. simpl.
  split; [reflexivity|].
  rewrite bindings_of_store_same.
  apply (dict_set_absent hash). exact Hnone.
Qed.


(** X7: when [Session.evaluate] raises, the expression was not bound, the
    exception is the one [evaluate_at] raised, and nothing was cached: every
    dictionary is as before the call. *)
Theorem failed_evaluate_caches_nothing (s : Session) (e : Expression)
    (w : World) (x : exn) :
  (evaluate hash s e w).1 = Raise x ->
  dict_get hash (bindings_of s w) e = None
  /\ evaluate hash s e w = evaluate_at hash e s w
  /\ dicts (evaluate hash s e w).2 = dicts w.
Proof.
  rewrite (evaluate_unfold hash).
  destruct (dict_get hash (bindings_of s w) e) as [v|]; [discriminate|].
  pose proof (evaluate_at_dicts hash e s w) as Hd.
  destruct (evaluate_at hash e s w) as [[v|y] w1]; [discriminate|].
  intros _. now repeat split.
Qed.

(** X8: [evaluate_at] writes no dictionary and only adds to the log of
    applications; on an expression that is not computed it leaves the whole
    state as it is. *)
Theorem evaluate_at_only_reads (e : Expression) (s : Session) (w : World) :
  dicts (evaluate_at hash e s w).2 = dicts w
  /\ (exists log, calls (evaluate_at hash e s w).2 = calls w ++ log)
  /\ match e with
     | Computed _ _ _ _ _ _ _ => True
     | _ => (evaluate_at hash e s w).2 = w
     end.
Proof.
  destruct (evaluate_at_frame hash e s w w eq_refl) as (r & log & E & _).
  split; [now rewrite E|]. split; [exists log; now rewrite E|].
  destruct e as [n p i|n p i|n p i v|n p i f a r' q]; try reflexivity;
    try exact I.
  rewrite evaluate_at_placeholder, lookup_unfold.
  now destruct (dict_get hash (bindings_of s w) (Placeholder n p i)).
Qed.

(** X9: what [evaluate] returned is what [lookup] returns afterwards; and
    [lookup] never changes the state. *)
Theorem evaluate_then_lookup (s : Session) (e : Expression) :
  (forall (w w' : World) (v : Value),
      evaluate hash s e w = (Ok v, w') -> lookup hash s e w' = (Ok v, w'))
  /\ (forall w : World, (lookup hash s e w).2 = w).
Proof.
  split.
  - intros w w' v H. apply (evaluate_binds hash) in H.
    rewrite lookup_unfold. now rewrite H.
  - intros w. rewrite lookup_unfold.
    now destruct (dict_get hash (bindings_of s w) e).
Qed.

Lemma evaluate_keeps (s : Session) (e k : Expression) (w : World)
    (v : Value) :
  dict_get hash (bindings_of s w) k = Some v ->
  dict_get hash (bindings_of s (evaluate hash s e w).2) k = Some v.
Proof.
  intros Hk. rewrite (evaluate_unfold hash).
  destruct (dict_get hash (bindings_of s w) e) as [ve|] eqn:He; [exact Hk|].
  pose proof (evaluate_at_bindings hash e s s w) as Hb.
  destruct (evaluate_at hash e s w) as [[v1|y] w1]; simpl in *.
  - rewrite bindings_of_store_same, Hb.
    rewrite (dict_get_set_other hash); [exact Hk|].
    intros E. rewrite (dict_get_probe hash _ k e E) in Hk. congruence.
  - now rewrite Hb.
Qed.

(** X10: the cache only grows.  A key bound in the session keeps its value
    through every call of [evaluate], on any expression; so a value that
    [evaluate] returned for [root] is still what it returns for [root]
    after other expressions were evaluated. *)
Theorem evaluate_keeps_bindings (s : Session) (e : Expression) :
  (forall (k : Expression) (w : World) (v : Value),
      dict_get hash (bindings_of s w) k = Some v ->
      dict_get hash (bindings_of s (evaluate hash s e w).2) k = Some v)
  /\ (forall (root : Expression) (w w1 : World) (v : Value),
        evaluate hash s root w = (Ok v, w1) ->
        evaluate hash s root (evaluate hash s e w1).2
          = (Ok v, (evaluate hash s e w1).2)).
Proof.
  split.
  - intros k w v. apply evaluate_keeps.
  - intros root w w1 v H. apply (evaluate_bound hash).
    apply evaluate_keeps. exact (evaluate_binds hash s root w w1 v H).
Qed.

(** ** Counting applications *)

Lemma applications_logged (i ident : string) (w : World) :
  applications i (mkWorld (dicts w) (calls w ++ [ident]))
  = applications i w + (if decide (ident = i) then 1 else 0).
Proof.
  unfold applications. simpl. rewrite filter_app, length_app.
  f_equal. rewrite filter_cons, filter_nil.
  now destruct (decide (ident = i)).
Qed.

Lemma evaluate_at_applications (e : Expression) (s : Session) (i : string) :
  forall (w w' : World) (v : Value),
    evaluate_at hash e s w = (Ok v, w') ->
    applications i w' = applications i w + occurrences i e.
Proof.
  induction e as [n p i0|n p i0|n p i0 v0|n p i0 f a r q IH]
    using Expression_tree_ind; intros w w' v H.
  - discriminate.
  - rewrite evaluate_at_placeholder, lookup_unfold in H.
    destruct (dict_get hash (bindings_of s w) (Placeholder n p i0));
      inversion H; subst. simpl. lia.
  - inversion H; subst. simpl. lia.
  - assert (forall (w w1 : World) (vs : list Value),
      mapM (fun arg => evaluate_at hash arg s) a w = (Ok vs, w1) ->
      applications i w1
      = applications i w + sum_list (map (occurrences i) a)) as Hargs.
    { clear w w' v H. induction IH as [|c a Hc _ IHa]; intros w w1 vs H.
      - inversion H; subst. simpl. lia.
      - simpl in H. unfold bind at 1 in H.
        destruct (evaluate_at hash c s w) as [[vc|x] wc] eqn:Ec;
          [|discriminate].
        unfold bind at 1 in H.
        destruct (mapM (fun arg => evaluate_at hash arg s) a wc)
          as [[vs'|x] wa] eqn:Ea; [|discriminate].
        inversion H; subst.
        rewrite (IHa _ _ _ Ea), (Hc _ _ _ Ec). simpl. lia. }
    simpl in H. unfold bind in H.
    destruct (mapM (fun arg => evaluate_at hash arg s) a w)
      as [[vs|x] w1] eqn:E; [|discriminate].
    unfold apply_func in H. inversion H; subst.
    rewrite applications_logged, (Hargs _ _ _ E). simpl. lia.
Qed.

(** X11: a successful [evaluate_at] applies the function of every computed
    node of the tree once for each path that leads to the node: for every
    identity, the number of applications grows by the number of its
    occurrences in the tree.  [Session.evaluate] applies as many when the
    root is not bound, and none when it is. *)
Theorem applications_count_paths (s : Session) (e : Expression)
    (i : string) :
  (forall (w w' : World) (v : Value),
      evaluate_at hash e s w = (Ok v, w') ->
      applications i w' = applications i w + occurrences i e)
  /\ (forall (w w' : World) (v : Value),
        dict_get hash (bindings_of s w) e = None ->
        evaluate hash s e w = (Ok v, w') ->
        applications i w' = applications i w + occurrences i e)
  /\ (forall (w : World) (v : Value),
        dict_get hash (bindings_of s w) e = Some v ->
        applications i (evaluate hash s e w).2 = applications i w).
Proof.
  split; [apply evaluate_at_applications|]. split.
  - intros w w' v Hnone H. rewrite (evaluate_unfold hash), Hnone in H.
    destruct (evaluate_at hash e s w) as [[v1|x] w1] eqn:E;
      inversion H; subst.
    unfold applications, store_dict. simpl.
    exact (evaluate_at_applications e s i w w1 v E).
  - intros w v Hsome. now rewrite (evaluate_bound hash s e w v Hsome).
Qed.

(** ** What a result depends on *)

Lemma evaluate_at_placeholders (e : Expression) (s1 s2 : Session)
    (d1 d2 : Dict) :
  (forall p, p ∈ placeholders e -> dict_get hash d1 p = dict_get hash d2 p) ->
  forall w1 w2 : World,
    bindings_of s1 w1 = d1 ->
    bindings_of s2 w2 = d2 ->
    exists r log,
      evaluate_at hash e s1 w1 = (r, mkWorld (dicts w1) (calls w1 ++ log))
      /\ evaluate_at hash e s2 w2 = (r, mkWorld (dicts w2) (calls w2 ++ log)).
Proof.
  induction e as [n p i|n p i|n p i v|n p i f a r q IH]
    using Expression_tree_ind; intros Hagree w1 w2 H1 H2.
  - exists (Raise (NotImplementedError "Expression")), [].
    rewrite !app_nil_r. destruct w1, w2. now split.
  - rewrite !evaluate_at_placeholder, !lookup_unfold, H1, H2.
    rewrite <- (Hagree (Placeholder n p i)) by (simpl; apply list_elem_of_here).
    destruct (dict_get hash d1 (Placeholder n p i)) as [v|].
    + exists (Ok v), []. rewrite !app_nil_r. destruct w1, w2. now split.
    + exists (Raise (KeyError i)), []. rewrite !app_nil_r.
      destruct w1, w2. now split.
  - exists (Ok v), []. rewrite !app_nil_r. destruct w1, w2. now split.
  - assert (forall w1 w2 : World,
      bindings_of s1 w1 = d1 -> bindings_of s2 w2 = d2 ->
      exists rs log,
        mapM (fun arg => evaluate_at hash arg s1) a w1
          = (rs, mkWorld (dicts w1) (calls w1 ++ log))
        /\ mapM (fun arg => evaluate_at hash arg s2) a w2
          = (rs, mkWorld (dicts w2) (calls w2 ++ log))) as Hargs.
    { clear w1 w2 H1 H2. simpl in Hagree.
      induction IH as [|c a Hc _ IHa]; intros w1 w2 H1 H2.
      - exists (Ok []), []. rewrite !app_nil_r. destruct w1, w2. now split.
      - simpl in Hagree. simpl. unfold bind at 1 3.
        destruct (Hc (fun p Hp => Hagree p (proj2 (elem_of_app _ _ p)
                                              (or_introl Hp)))
                     w1 w2 H1 H2) as (rc & logc & -> & ->).
        destruct rc as [vc|x].
        + unfold bind at 1 2.
          destruct (IHa (fun p Hp => Hagree p (proj2 (elem_of_app _ _ p)
                                                 (or_intror Hp)))
                        (mkWorld (dicts w1) (calls w1 ++ logc))
                        (mkWorld (dicts w2) (calls w2 ++ logc)))
            as (rs & logs & -> & ->); [exact H1|exact H2|]. simpl.
          destruct rs as [vs|x].
          * exists (Ok (vc :: vs)), (logc ++ logs).
            rewrite !app_assoc. now split.
          * exists (Raise x), (logc ++ logs). rewrite !app_assoc. now split.
        + exists (Raise x), logc. now split. }
    simpl. unfold bind. destruct (Hargs w1 w2 H1 H2) as (rs & log & -> & ->).
    destruct rs as [vs|x].
    + exists (f vs), (log ++ [i]). unfold apply_func. simpl.
      rewrite !app_assoc. now split.
    + exists (Raise x), log. now split.
Qed.

(** X12: the result of [evaluate_at] depends on the session only through
    the bindings of the placeholders of the tree.  Two sessions that agree
    on those give the same result, whatever else they bind: a binding for
    a constant or for a computed expression is never read.  A tree without
    placeholders evaluates to the same result in every session. *)
Theorem evaluate_at_reads_only_placeholders (e : Expression) :
  (forall (s1 s2 : Session) (w1 w2 : World),
      (forall p, p ∈ placeholders e ->
                 dict_get hash (bindings_of s1 w1) p
                 = dict_get hash (bindings_of s2 w2) p) ->
      (evaluate_at hash e s1 w1).1 = (evaluate_at hash e s2 w2).1)
  /\ (placeholders e = [] ->
      forall (s1 s2 : Session) (w1 w2 : World),
        (evaluate_at hash e s1 w1).1 = (evaluate_at hash e s2 w2).1).
Proof.
  assert (forall (s1 s2 : Session) (w1 w2 : World),
      (forall p, p ∈ placeholders e ->
                 dict_get hash (bindings_of s1 w1) p
                 = dict_get hash (bindings_of s2 w2) p) ->
      (evaluate_at hash e s1 w1).1 = (evaluate_at hash e s2 w2).1) as H.
  { intros s1 s2 w1 w2 Hagree.
    destruct (evaluate_at_placeholders e s1 s2 _ _ Hagree w1 w2
                eq_refl eq_refl) as (r & log & -> & ->).
    reflexivity. }
  split; [exact H|].
  intros Hnone s1 s2 w1 w2. apply H. rewrite Hnone.
  intros p Hp. now apply elem_of_nil in Hp.
Qed.

(** ** Sessions *)

(** X13: two sessions never share a dictionary, also when made from the
    same mapping: [evaluate] on one of them leaves the bindings of the
    other as they are. *)
Theorem sessions_do_not_share_bindings (b1 b2 : option positive)
    (w w1 w2 : World) (s1 s2 : Session) :
  Session__init b1 w = (Ok s1, w1) ->
  Session__init b2 w1 = (Ok s2, w2) ->
  _bindings s1 <> _bindings s2
  /\ (forall (e : Expression) (w' : World),
        bindings_of s2 (evaluate hash s1 e w').2 = bindings_of s2 w'
        /\ bindings_of s1 (evaluate hash s2 e w').2 = bindings_of s1 w').
Proof.
  intros H1 H2.
  apply Session__init_fresh in H1 as [_ ->].
  apply Session__init_fresh in H2 as [Hfresh _].
  assert (_bindings s1 <> _bindings s2) as Hne.
  { intros E. rewrite <- E in Hfresh. unfold store_dict in Hfresh.
    simpl in Hfresh. rewrite lookup_insert_eq in Hfresh. discriminate. }
  split; [exact Hne|].
  intros e w'. unfold bindings_of.
  split; now rewrite (evaluate_other_dicts hash) by congruence.
Qed.

(** X14: a session made without bindings, or from an empty mapping, binds
    nothing: every [lookup] raises [KeyError].  The constructor applies no
    function and leaves the dictionaries that existed as they were. *)
Theorem session_without_bindings_is_empty (b : option positive)
    (w w1 : World) (s : Session) :
  Session__init b w = (Ok s, w1) ->
  b = None \/ (exists m, b = Some m /\ dicts w !! m = Some []) ->
  bindings_of s w1 = []
  /\ (forall e : Expression,
        lookup hash s e w1 = (Raise (KeyError (_id e)), w1))
  /\ calls w1 = calls w
  /\ (forall l, l <> _bindings s -> dicts w1 !! l = dicts w !! l).
Proof.
  intros H Hb. apply Session__init_fresh in H as [_ ->].
  assert (or_empty b w = []) as Hempty.
  { destruct Hb as [->|(m & -> & Hm)]; [reflexivity|].
    unfold or_empty. now rewrite Hm. }
  assert (bindings_of s (store_dict (_bindings s) (or_empty b w) w) = [])
    as Hs by now rewrite bindings_of_store_same.
  split; [exact Hs|]. split.
  - intros e. rewrite lookup_unfold. now rewrite Hs.
  - split; [reflexivity|].
    intros l Hl. unfold store_dict. simpl.
    now rewrite lookup_insert_ne by congruence.
Qed.

(** ** Proxies *)

Lemma constants_of_init (avs : list (N * Value)) :
  constants_of
    (map (fun av => ConstantExpression__init av.1 av.2 None) avs)
    (map snd avs).
Proof.
  induction avs as [|[a v] avs IH]; constructor; [|exact IH].
  now eexists _, _, _.
Qed.

(** X15: over constants that were given no proxy, the proxy that the
    constructor of a computed expression derives is the value the
    expression evaluates to: the function is applied to the real values
    at construction. *)
Theorem derived_proxy_of_constants_is_the_value (self : N) (name : string)
    (f : list Value -> Res Value) (avs : list (N * Value))
    (ident : option string) (r q : option bool) (e : Expression)
    (s : Session) (w : World) :
  ComputedExpression__init self name f
    (map (fun av => ConstantExpression__init av.1 av.2 None) avs)
    None ident r q = Ok e ->
  (evaluate_at hash e s w).1 = Ok (proxy e).
Proof.
  intros H. unfold ComputedExpression__init in H.
  assert (map proxy
            (map (fun av => ConstantExpression__init av.1 av.2 None) avs)
          = map snd avs) as Hp.
  { clear H. induction avs as [|[a v] avs IH]; simpl; [reflexivity|].
    now rewrite IH. }
  rewrite Hp in H.
  destruct (f (map snd avs)) as [p|x] eqn:E; inversion H; subst.
  rewrite (evaluate_at_over_constants name p (id_or_default ident name self)
             f _ _ (default true r) (default false q) s w
             (constants_of_init avs)).
  simpl. exact E.
Qed.

End Further.

(** * The further properties on the test data *)

Lemma eq_is_an_equivalence_consistent_with_hash_witness :
  Expression_eq shadow_child shadow_root = true
  /\ Expression_eq shadow_root rebuilt_sum = false
  /\ Expression_eq shadow_root shadow_child = true
  /\ Expression_eq shadow_child shadow_child = true
  /\ Expression_hash length_hash shadow_child
     = Expression_hash length_hash shadow_root
  /\ Expression_ne shadow_root rebuilt_sum = true.
Proof.
  destruct (eq_is_an_equivalence_consistent_with_hash (Value:=Z) length_hash)
    as (_ & Hsym & Htrans & Hhash & Hne).
  assert (Expression_eq shadow_child shadow_root = true) as H1
    by (vm_compute; reflexivity).
  assert (Expression_eq shadow_root shadow_child = true) as H2
    by (rewrite Hsym; exact H1).
  assert (_id shadow_root <> _id rebuilt_sum) as H3 by discriminate.
  split; [exact H1|]. split; [vm_compute; reflexivity|].
  split; [exact H2|].
  split; [exact (Htrans _ _ _ H1 H2)|].
  split; [exact (Hhash _ _ H1)|].
  exact (proj2 (Hne _ _) H3).
Defined.

Lemma default_identities_are_distinct_witness :
  Expression_eq (PlaceholderExpression__init 5 0%Z)
                (PlaceholderExpression__init 5 1%Z) = true
  /\ (Expression_eq (PlaceholderExpression__init 5 0%Z)
                    (PlaceholderExpression__init 6 0%Z) = true -> False)
  /\ ComputedExpression__init 9 "add" add [two; three] None None None None
     = Ok two_plus_three
  /\ elementwise_expression 9 "add" add [two; three]
     = Ok elementwise_two_plus_three
  /\ Expression_eq two_plus_three elementwise_two_plus_three = true.
Proof.
  destruct (default_identities_are_distinct (Value:=Z))
    as (_ & Hp & _ & _ & Hc).
  assert (ComputedExpression__init 9 "add" add [two; three]
            None None None None = Ok two_plus_three) as H1
    by (vm_compute; reflexivity).
  assert (ComputedExpression__init 9 "add" add [two; three]
            None None (Some false) (Some true)
          = Ok elementwise_two_plus_three) as H2
    by (vm_compute; reflexivity).
  split; [exact (proj2 (Hp 5%N 5%N 0%Z 1%Z) eq_refl)|].
  split.
  { intros E. apply (Hp 5%N 6%N 0%Z 0%Z) in E. discriminate. }
  split; [exact H1|]. split; [exact H2|].
  exact (proj2 (Hc _ _ _ _ _ _ _ _ _ _ _ _ _ _ _ _ H1 H2)
           (conj eq_refl eq_refl)).
Defined.

Lemma identity_survives_reconstruction_witness :
  ComputedExpression__init 9 "add" add [two; three] None None None None
    = Ok two_plus_three
  /\ _id two_plus_three <> EmptyString
  /\ ComputedExpression__init 77 "other" one [] (Some 0%Z)
       (Some (_id two_plus_three)) None None = Ok rebuilt_sum
  /\ Expression_eq rebuilt_sum two_plus_three = true.
Proof.
  destruct (identity_survives_reconstruction (Value:=Z) length_hash)
    as (_ & _ & _ & Hne & Hre & _).
  assert (ComputedExpression__init 9 "add" add [two; three]
            None None None None = Ok two_plus_three) as H1
    by (vm_compute; reflexivity).
  assert (ComputedExpression__init 77 "other" one [] (Some 0%Z)
            (Some (_id two_plus_three)) None None = Ok rebuilt_sum) as H2
    by (vm_compute; reflexivity).
  pose proof (Hne _ _ _ _ _ _ _ _ _ H1) as H3.
  split; [exact H1|]. split; [exact H3|]. split; [exact H2|].
  exact (proj1 (Hre _ _ _ _ _ _ _ _ _ H3 H2)).
Defined.

Lemma elementwise_expression_depends_on_proxy_call_witness :
  (broken (map proxy [two; three]) = Raise (Failure "broken")
   /\ elementwise_expression 9 "broken" broken [two; three]
      = Raise (Failure "broken"))
  /\ (elementwise_expression 9 "add" add [two; three]
        = Ok elementwise_two_plus_three
      /\ args elementwise_two_plus_three = [two; three]
      /\ add (map proxy [two; three])
         = Ok (proxy elementwise_two_plus_three)).
Proof.
  assert (broken (map proxy [two; three]) = Raise (Failure "broken")) as H1
    by reflexivity.
  assert (elementwise_expression 9 "add" add [two; three]
          = Ok elementwise_two_plus_three) as H2
    by (vm_compute; reflexivity).
  split.
  - split; [exact H1|].
    exact (proj2 (proj1 (elementwise_expression_depends_on_proxy_call
                           9 "broken" broken [two; three]) _) H1).
  - destruct (proj2 (elementwise_expression_depends_on_proxy_call
                       9 "add" add [two; three]) _ H2) as (Ha & Hp & _).
    split; [exact H2|]. split; [exact Ha|exact Hp].
Defined.

Lemma two_three_constants : constants_of [two; three] [2%Z; 3%Z].
Proof.
  constructor; [now eexists _, _, _|].
  constructor; [now eexists _, _, _|]. constructor.
Defined.

Lemma computed_over_constants_witness :
  constants_of [two; three] [2%Z; 3%Z]
  /\ evaluate_at length_hash two_plus_three first_session session_world
     = (Ok 5%Z,
        mkWorld (dicts session_world) (calls session_world ++ ["add_9"]))
  /\ (evaluate length_hash first_session two_plus_three session_world).1
     = Ok 5%Z.
Proof.
  destruct (computed_over_constants length_hash "add" 5%Z "add_9" add
              [two; three] [2%Z; 3%Z] true false first_session session_world
              two_three_constants) as [Hat Hev].
  assert (dict_get length_hash (bindings_of first_session session_world)
            two_plus_three = None) as H1 by (vm_compute; reflexivity).
  assert (add [2%Z; 3%Z] = Ok 5%Z) as H2 by reflexivity.
  split; [exact two_three_constants|]. split; [exact Hat|].
  exact (proj1 (Hev 5%Z H1 H2)).
Defined.


Lemma failed_evaluate_caches_nothing_witness :
  (evaluate length_hash first_session broken_sum session_world).1
    = Raise (Failure "broken")
  /\ dicts (evaluate length_hash first_session broken_sum session_world).2
     = dicts session_world.
Proof.
  assert ((evaluate length_hash first_session broken_sum session_world).1
          = Raise (Failure "broken")) as H1 by (vm_compute; reflexivity).
  split; [exact H1|].
  exact (proj2 (proj2 (failed_evaluate_caches_nothing length_hash
                         first_session broken_sum session_world _ H1))).
Defined.

Lemma evaluate_then_lookup_witness :
  evaluate length_hash first_session two_plus_three session_world
    = (Ok 5%Z, after_sum)
  /\ lookup length_hash first_session two_plus_three after_sum
     = (Ok 5%Z, after_sum).
Proof.
  assert (evaluate length_hash first_session two_plus_three session_world
          = (Ok 5%Z, after_sum)) as H1 by (vm_compute; reflexivity).
  split; [exact H1|].
  exact (proj1 (evaluate_then_lookup length_hash first_session
                  two_plus_three) _ _ _ H1).
Defined.

Lemma evaluate_keeps_bindings_witness :
  dict_get length_hash (bindings_of first_session after_sum) two_plus_three
    = Some 5%Z
  /\ dict_get length_hash
       (bindings_of first_session
          (evaluate length_hash first_session node_f after_sum).2)
       two_plus_three = Some 5%Z
  /\ evaluate length_hash first_session two_plus_three session_world
     = (Ok 5%Z, after_sum)
  /\ (evaluate length_hash first_session two_plus_three
        (evaluate length_hash first_session node_f after_sum).2).1
     = Ok 5%Z.
Proof.
  destruct (evaluate_keeps_bindings length_hash first_session node_f)
    as [Hkeep Hagain].
  assert (dict_get length_hash (bindings_of first_session after_sum)
            two_plus_three = Some 5%Z) as H1 by (vm_compute; reflexivity).
  assert (evaluate length_hash first_session two_plus_three session_world
          = (Ok 5%Z, after_sum)) as H2 by (vm_compute; reflexivity).
  split; [exact H1|]. split; [exact (Hkeep _ _ _ H1)|]. split; [exact H2|].
  now rewrite (Hagain _ _ _ _ H2).
Defined.

Lemma applications_count_paths_witness :
  evaluate_at length_hash node_f first_session session_world
    = (Ok 4%Z, after_diamond)
  /\ occurrences "a_1" node_f = 2
  /\ applications "a_1" after_diamond
     = applications "a_1" session_world + occurrences "a_1" node_f.
Proof.
  assert (evaluate_at length_hash node_f first_session session_world
          = (Ok 4%Z, after_diamond)) as H1 by (vm_compute; reflexivity).
  split; [exact H1|]. split; [vm_compute; reflexivity|].
  exact (proj1 (applications_count_paths length_hash first_session node_f
                  "a_1") _ _ _ H1).
Defined.

Lemma evaluate_at_reads_only_placeholders_witness :
  (forall p, p ∈ placeholders placeholder_plus_two ->
             dict_get length_hash
               (bindings_of second_session bound_session_world) p
             = dict_get length_hash
                 (bindings_of second_session rebound_world) p)
  /\ (evaluate_at length_hash placeholder_plus_two second_session
        bound_session_world).1
     = (evaluate_at length_hash placeholder_plus_two second_session
          rebound_world).1
  /\ (evaluate_at length_hash placeholder_plus_two second_session
        rebound_world).1 = Ok 44%Z.
Proof.
  assert (forall p, p ∈ placeholders placeholder_plus_two ->
             dict_get length_hash
               (bindings_of second_session bound_session_world) p
             = dict_get length_hash
                 (bindings_of second_session rebound_world) p) as H1.
  { intros p Hp. apply list_elem_of_singleton in Hp. subst p.
    vm_compute. reflexivity. }
  split; [exact H1|]. split; [|vm_compute; reflexivity].
  exact (proj1 (evaluate_at_reads_only_placeholders length_hash
                  placeholder_plus_two) _ _ _ _ H1).
Defined.

Lemma sessions_do_not_share_bindings_witness :
  Session__init None empty_world = (Ok first_session, session_world)
  /\ Session__init None session_world = (Ok second_session, two_sessions_world)
  /\ _bindings first_session <> _bindings second_session
  /\ bindings_of second_session
       (evaluate length_hash first_session two_plus_three
          two_sessions_world).2
     = bindings_of second_session two_sessions_world.
Proof.
  assert (Session__init None empty_world = (Ok first_session, session_world))
    as H1 by (vm_compute; reflexivity).
  assert (Session__init None session_world
          = (Ok second_session, two_sessions_world)) as H2
    by (vm_compute; reflexivity).
  destruct (sessions_do_not_share_bindings length_hash None None _ _ _ _ _
              H1 H2) as [Hne Hframe].
  split; [exact H1|]. split; [exact H2|]. split; [exact Hne|].
  exact (proj1 (Hframe two_plus_three two_sessions_world)).
Defined.

Lemma session_without_bindings_is_empty_witness :
  Session__init None empty_world = (Ok first_session, session_world)
  /\ bindings_of first_session session_world = []
  /\ lookup length_hash first_session the_placeholder session_world
     = (Raise (KeyError "placeholder_5"), session_world).
Proof.
  assert (Session__init None empty_world = (Ok first_session, session_world))
    as H1 by (vm_compute; reflexivity).
  destruct (session_without_bindings_is_empty length_hash None _ _ _ H1
              (or_introl eq_refl)) as (Hempty & Hlookup & _).
  split; [exact H1|]. split; [exact Hempty|].
  exact (Hlookup the_placeholder).
Defined.

Lemma derived_proxy_of_constants_is_the_value_witness :
  ComputedExpression__init 9 "add" add
    (map (fun av => ConstantExpression__init av.1 av.2 None)
       [(7%N, 2%Z); (8%N, 3%Z)])
    None None None None = Ok two_plus_three
  /\ proxy two_plus_three = 5%Z
  /\ (evaluate_at length_hash two_plus_three first_session session_world).1
     = Ok (proxy two_plus_three).
Proof.
  assert (ComputedExpression__init 9 "add" add
            (map (fun av => ConstantExpression__init av.1 av.2 None)
               [(7%N, 2%Z); (8%N, 3%Z)])
            None None None None = Ok two_plus_three) as H1
    by (vm_compute; reflexivity).
  split; [exact H1|]. split; [reflexivity|].
  exact (derived_proxy_of_constants_is_the_value length_hash _ _ _ _ _ _ _ _
           first_session session_world H1).
Defined.
